(** * DeepDetect: the ML library strategy (mllibstrategy.h)

    A shallow embedding of [dd::MLLib], the generic class that wraps a
    machine-learning backend into a service unit: its two exception kinds,
    its constructors, the full clear of the model repository and the two
    measure stores (current values and per-iteration history).

    Data is modelled as the header has it: [double] is the kernel's binary64
    float, [std::string] is [string], [std::unordered_map<std::string,T>] is
    [gmap string T], [std::vector<double>] is [list double].  Every method
    that takes a [std::lock_guard] runs its body atomically under the lock,
    so a method is one state transformer on the instance. *)

From Stdlib Require Import ZArith PrimFloat.
From stdpp Require Import gmap strings list fin_maps.

Set Warnings "-register-all".

Local Open Scope string_scope.

(** ** Scalars *)

Definition double : Set := float.

(** [std::numeric_limits<double>::quiet_NaN()] *)
Definition quiet_NaN : double := nan.

(** ** The structured-value payload (apidata.h)

    [collect_measures] and [collect_measures_history] only call
    [APIData::add] with a [double], a [std::vector<double>] or a nested
    [APIData]; the variant is restricted to these three alternatives. *)

Inductive ad_variant_type : Type :=
| ad_double (d : double)
| ad_vdouble (v : list double)
| ad_apidata (ad : gmap string ad_variant_type).

Abbreviation APIData := (gmap string ad_variant_type).

(** Modelled from the spec: [APIData::add], which apidata.h declares and
    this header only calls.  The payload is "an ordered/keyed container" that
    supports "keyed insertion ([add(key, value)]) and lookup": adding binds
    the key to the value in the container. *)
Definition APIData_add (key : string) (val : ad_variant_type) (ad : APIData) : APIData :=
  <[key := val]> ad.

(** ** Exceptions *)

Inductive exception : Type :=
| MLLibBadParamException (_s : string)
| MLLibInternalException (_s : string).

(** [s.c_str()] read as a C string: the characters before the first NUL. *)
Fixpoint c_str (s : string) : string :=
  match s with
  | EmptyString => EmptyString
  | String a s' => if Ascii.eqb a Ascii.zero then EmptyString else String a (c_str s')
  end.

(** [const char* what() const noexcept { return _s.c_str(); }] *)
Definition what (e : exception) : string :=
  match e with
  | MLLibBadParamException _s => c_str _s
  | MLLibInternalException _s => c_str _s
  end.

(** The result of a call that may throw. *)
Inductive outcome (A : Type) : Type :=
| Returns (a : A)
| Throws (e : exception).
Arguments Returns {A} a.
Arguments Throws {A} e.

(** ** Requirements on the template parameters *)

(** The connectors are default-constructed by [MLLib(const TMLModel&)]. *)
Class DefaultConstructible (T : Type) : Type := default_construct : T.

(** The model descriptor exposes its repository path, [_mlmodel._repo]. *)
Class MLModel (TMLModel : Type) : Type := _repo : TMLModel → string.

(** [fileops::clear_directory] of utils/fileops.hpp acts on the file system
    and returns an [int]; the class only compares that code with zero, so
    the width of [int] plays no part. *)
Class FileOps (FileSystem : Type) : Type :=
  clear_directory : string → FileSystem → Z * FileSystem.

(** ** Operations of the standard containers used by the class *)

(** [v.push_back(x)] on a [std::vector] *)
Definition push_back {T : Type} (v : list T) (x : T) : list T := (v ++ [x])%list.

Section unordered_map.
Context {T : Type}.

(** [m.insert(std::pair(k, v))]: inserts only when the key is absent. *)
Definition umap_insert (k : string) (v : T) (m : gmap string T) : gmap string T :=
  match m !! k with
  | Some _ => m
  | None => <[k := v]> m
  end.

(** A mutation [f] of [hit->second], for the iterator [hit] that [find(k)]
    returned. *)
Definition umap_mutate (f : T → T) (k : string) (m : gmap string T) : gmap string T :=
  alter f k m.

(** [hit->second = v] *)
Definition umap_assign (k : string) (v : T) (m : gmap string T) : gmap string T :=
  umap_mutate (λ _, v) k m.

(** [m.clear()] *)
Definition umap_clear (m : gmap string T) : gmap string T := ∅.

(** [for (hit = m.begin(); hit != m.end(); ++hit) acc = body(hit, acc)] *)
Definition umap_iterate {B : Type} (body : string → T → B → B) (acc : B)
    (m : gmap string T) : B :=
  map_fold body acc m.
End unordered_map.

(** ** The class [MLLib] *)

Section MLLib.
Context {TInputConnectorStrategy TOutputConnectorStrategy TMLModel : Type}.
Context `{!DefaultConstructible TInputConnectorStrategy,
          !DefaultConstructible TOutputConnectorStrategy,
          !MLModel TMLModel}.

Record MLLib : Type := mkMLLib {
  _inputc : TInputConnectorStrategy;
  _outputc : TOutputConnectorStrategy;
  _has_train : bool;
  _has_predict : bool;
  _mlmodel : TMLModel;
  _libname : string;
  _meas : gmap string double;
  _meas_per_iter : gmap string (list double);
  _tjob_running : bool;
  _online : bool
}.

Definition set_meas (m : gmap string double) (this : MLLib) : MLLib :=
  mkMLLib (_inputc this) (_outputc this) (_has_train this) (_has_predict this)
          (_mlmodel this) (_libname this) m (_meas_per_iter this)
          (_tjob_running this) (_online this).

Definition set_meas_per_iter (h : gmap string (list double)) (this : MLLib) : MLLib :=
  mkMLLib (_inputc this) (_outputc this) (_has_train this) (_has_predict this)
          (_mlmodel this) (_libname this) (_meas this) h
          (_tjob_running this) (_online this).

(** [MLLib(const TMLModel &mlmodel) :_mlmodel(mlmodel),_tjob_running(false)]:
    the members left out of the initializer list take their default member
    initializer, or are default-constructed. *)
Definition MLLib_ctor (mlmodel : TMLModel) : MLLib :=
  {| _inputc := default_construct;
     _outputc := default_construct;
     _has_train := false;
     _has_predict := true;
     _mlmodel := mlmodel;
     _libname := "";
     _meas := ∅;
     _meas_per_iter := ∅;
     _tjob_running := false;
     _online := false |}.

(** [MLLib(MLLib &&mll) noexcept
      :_inputc(mll._inputc),_outputc(mll._outputc),_mlmodel(mll._mlmodel),
       _meas(mll._meas),_tjob_running(mll._tjob_running.load())]:
    again the members left out of the list ([_has_train], [_has_predict],
    [_libname], [_meas_per_iter], [_online]) take their defaults. *)
Definition MLLib_move_ctor (mll : MLLib) : MLLib :=
  {| _inputc := _inputc mll;
     _outputc := _outputc mll;
     _has_train := false;
     _has_predict := true;
     _mlmodel := _mlmodel mll;
     _libname := "";
     _meas := _meas mll;
     _meas_per_iter := ∅;
     _tjob_running := _tjob_running mll;
     _online := false |}.

(** [clear_full]: the instance is not modified; the file system is. *)
Definition clear_full `{!FileOps FileSystem} (this : MLLib) (fs : FileSystem)
    : outcome unit * FileSystem :=
  let '(err, fs') := clear_directory (_repo (_mlmodel this)) fs in
  if (err >? 0)%Z then
    (Throws (MLLibBadParamException
               ("Failed opening directory " +:+ _repo (_mlmodel this)
                  +:+ " for deleting files within")), fs')
  else if (err <? 0)%Z then
    (Throws (MLLibInternalException
               ("Failed deleting all files in directory " +:+ _repo (_mlmodel this))), fs')
  else (Returns (), fs').

Definition clear_all_meas_per_iter (this : MLLib) : MLLib :=
  set_meas_per_iter (umap_clear (_meas_per_iter this)) this.

Definition add_meas_per_iter (meas : string) (l : double) (this : MLLib) : MLLib :=
  match _meas_per_iter this !! meas with
  | Some _ =>
      set_meas_per_iter
        (umap_mutate (λ second, push_back second l) meas (_meas_per_iter this)) this
  | None =>
      let vmeas := [l] in
      set_meas_per_iter (umap_insert meas vmeas (_meas_per_iter this)) this
  end.

(** The calls [add_meas_per_iter(meas, l)] for each [l] of a sequence, in
    order. *)
Definition add_all_meas_per_iter (meas : string) (ls : list double) (this : MLLib) : MLLib :=
  foldl (λ this' l, add_meas_per_iter meas l this') this ls.

(** The instance is read; the data object [ad] is written. *)
Definition collect_measures_history (this : MLLib) (ad : APIData) : APIData :=
  let meas_hist : APIData :=
    umap_iterate (λ first second acc, APIData_add (first +:+ "_hist") (ad_vdouble second) acc)
                 ∅ (_meas_per_iter this) in
  APIData_add "measure_hist" (ad_apidata meas_hist) ad.

Definition add_meas (meas : string) (l : double) (this : MLLib) : MLLib :=
  match _meas this !! meas with
  | Some _ => set_meas (umap_assign meas l (_meas this)) this
  | None => set_meas (umap_insert meas l (_meas this)) this
  end.

(** The calls [add_meas(s.first, s.second)] for each [s] of a sequence, in
    order. *)
Definition add_all_meas (sets : list (string * double)) (this : MLLib) : MLLib :=
  foldl (λ this' s, add_meas s.1 s.2 this') this sets.

Definition get_meas (meas : string) (this : MLLib) : double :=
  match _meas this !! meas with
  | Some second => second
  | None => quiet_NaN
  end.

Definition collect_measures (this : MLLib) (ad : APIData) : APIData :=
  let meas : APIData :=
    umap_iterate (λ first second acc, APIData_add first (ad_double second) acc)
                 ∅ (_meas this) in
  APIData_add "measure" (ad_apidata meas) ad.
End MLLib.

Arguments MLLib : clear implicits.

(** ** The lifetime of an instance: sequences of method calls

    The methods whose bodies the header defines, as calls with their
    arguments.  [train], [predict], [status], [init_mllib] and [clear_mllib]
    are only declared there; each backend defines them. *)

Inductive call : Type :=
| call_clear_full
| call_clear_all_meas_per_iter
| call_add_meas_per_iter (meas : string) (l : double)
| call_collect_measures_history (ad : APIData)
| call_add_meas (meas : string) (l : double)
| call_get_meas (meas : string)
| call_collect_measures (ad : APIData).

Definition is_clear_all_meas_per_iter (c : call) : bool :=
  match c with
  | call_clear_all_meas_per_iter => true
  | _ => false
  end.

(** The value that the last [add_meas(name, _)] of a sequence of calls wrote,
    if the sequence has one. *)
Definition last_add_meas (name : string) (cs : list call) : option double :=
  foldl (λ acc c,
           match c with
           | call_add_meas meas l => if decide (meas = name) then Some l else acc
           | _ => acc
           end) None cs.

Section lifetime.
Context {TInputConnectorStrategy TOutputConnectorStrategy TMLModel FileSystem : Type}.
Context `{!DefaultConstructible TInputConnectorStrategy,
          !DefaultConstructible TOutputConnectorStrategy,
          !MLModel TMLModel, !FileOps FileSystem}.

Abbreviation world :=
  (MLLib TInputConnectorStrategy TOutputConnectorStrategy TMLModel * FileSystem)%type.

(** One call, as its effect on the instance and on the file system.  The
    value a call returns, the data object it fills and the exception
    [clear_full] may throw go to the caller; the instance lives on. *)
Definition step (c : call) (w : world) : world :=
  match c with
  | call_clear_full => (w.1, (clear_full w.1 w.2).2)
  | call_clear_all_meas_per_iter => (clear_all_meas_per_iter w.1, w.2)
  | call_add_meas_per_iter meas l => (add_meas_per_iter meas l w.1, w.2)
  | call_collect_measures_history _ => w
  | call_add_meas meas l => (add_meas meas l w.1, w.2)
  | call_get_meas _ => w
  | call_collect_measures _ => w
  end.

Definition run (cs : list call) (w : world) : world :=
  foldl (λ w c, step c w) w cs.
End lifetime.

(** ** A small instantiation, for the examples *)

#[global] Instance unit_default_constructible : DefaultConstructible unit := ().

(** A model descriptor that is just its repository path. *)
#[global] Instance path_model : MLModel string := λ repo, repo.

(** Modelled from the spec: [fileops::clear_directory], which
    utils/fileops.hpp declares and this header only calls.  It "returns a
    positive code on cannot open directory, a negative code on could not
    delete everything", and zero otherwise.  Here a file system maps a
    directory to its entries, each with a flag telling whether it can be
    removed; entries that cannot be removed are counted in the negative code
    and stay. *)
#[global] Instance toy_fileops : FileOps (gmap string (list (string * bool))) :=
  λ repo fs,
    match fs !! repo with
    | None => (1%Z, fs)
    | Some entries =>
        let kept := filter (λ e, e.2 = false) entries in
        ((- Z.of_nat (length kept))%Z, <[repo := kept]> fs)
    end.

Definition toy_fs : gmap string (list (string * bool)) :=
  {[ "/srv/model" := [("a", true); ("b", true); ("c", true)];
     "/srv/locked" := [("weights", false); ("log", true)] ]}.

Abbreviation ToyLib := (MLLib unit unit string).

(** A service in the middle of a training run. *)
Definition toy_lib : ToyLib :=
  {| _inputc := (); _outputc := ();
     _has_train := true; _has_predict := true;
     _mlmodel := "/srv/model"; _libname := "toy";
     _meas := {[ "loss" := 0.25%float ]};
     _meas_per_iter := {[ "loss" := [1%float; 0.5%float; 0.25%float] ]};
     _tjob_running := true; _online := true |}.

(** ** Vocabulary of the statements *)

(** A message names a path when the path occurs in it. *)
Definition names_path (msg path : string) : Prop :=
  ∃ before after : string, msg = before +:+ path +:+ after.

(** The members that no method of the header writes: the connectors, the
    capability flags, the model, the library name and the training flag. *)
Definition configuration {TInputConnectorStrategy TOutputConnectorStrategy TMLModel : Type}
    (this : MLLib TInputConnectorStrategy TOutputConnectorStrategy TMLModel) :=
  (_inputc this, _outputc this, _has_train this, _has_predict this,
   _mlmodel this, _libname this, _tjob_running this, _online this).

(** The values that a sequence of calls appended to the history of a name
    since its last [clear_all_meas_per_iter], in the order of the calls. *)
Definition appended_since_clear (name : string) (cs : list call) : list double :=
  foldl (λ acc c,
           match c with
           | call_add_meas_per_iter meas l =>
               if decide (meas = name) then push_back acc l else acc
           | call_clear_all_meas_per_iter => []
           | _ => acc
           end) [] cs.

(** What the history holds for a name, given the values appended for it:
    the name is absent as long as there is none. *)
Definition stored_sequence (seq : list double) : option (list double) :=
  match seq with
  | [] => None
  | _ :: _ => Some seq
  end.

(** * Properties *)

(** ** The containers *)

Section unordered_map_facts.
Context {T : Type}.
Implicit Types (m : gmap string T) (k : string) (v : T).

Lemma umap_insert_absent k v m : m !! k = None → umap_insert k v m = <[k := v]> m.
Proof. unfold umap_insert. by intros ->. Qed.

Lemma umap_insert_present k v m : is_Some (m !! k) → umap_insert k v m = m.
Proof. unfold umap_insert. by intros [? ->]. Qed.

Lemma umap_mutate_found f k v m : m !! k = Some v → umap_mutate f k m = <[k := f v]> m.
Proof.
  intros Hk. unfold umap_mutate. apply map_eq. intros j.
  destruct (decide (k = j)) as [<- | Hne].
  - by rewrite lookup_alter_eq, lookup_insert_eq, Hk.
  - by rewrite lookup_alter_ne, lookup_insert_ne.
Qed.

Lemma umap_assign_found k v m : is_Some (m !! k) → umap_assign k v m = <[k := v]> m.
Proof. intros [w Hw]. unfold umap_assign. by rewrite (umap_mutate_found _ _ w). Qed.
End unordered_map_facts.

Lemma length_append (s1 s2 : string) :
  String.length (s1 +:+ s2) = String.length s1 + String.length s2.
Proof. induction s1 as [| a s1 IH]; simpl; [done | by rewrite IH]. Qed.

Lemma append_String (a : Ascii.ascii) (s1 s2 : string) :
  String a s1 +:+ s2 = String a (s1 +:+ s2).
Proof. reflexivity. Qed.

Lemma append_empty_r (s : string) : s +:+ "" = s.
Proof. induction s as [| a s IH]; [done | by rewrite append_String, IH]. Qed.

(** Two names with the same suffix appended are the same name. *)
Lemma append_suffix_inj (suffix s1 s2 : string) :
  s1 +:+ suffix = s2 +:+ suffix → s1 = s2.
Proof.
  revert s2. induction s1 as [| a s1 IH]; intros [| b s2] H; simpl in H.
  - done.
  - apply (f_equal String.length) in H. simpl in H. rewrite !length_append in H. simpl in H. lia.
  - apply (f_equal String.length) in H. simpl in H. rewrite !length_append in H. simpl in H. lia.
  - injection H as -> H. f_equal. by apply IH.
Qed.

#[local] Instance hist_suffix_inj : Inj (=) (=) (λ name : string, name +:+ "_hist").
Proof. intros s1 s2. apply append_suffix_inj. Qed.

(** The loop of the two [collect] methods: every entry of the map is added
    to the data object, under a key computed from its own. *)
Lemma umap_iterate_add {T : Type} (key : string → string) `{!Inj (=) (=) key}
    (val : T → ad_variant_type) (m : gmap string T) :
  umap_iterate (λ first second acc, APIData_add (key first) (val second) acc) ∅ m
  = kmap key (val <$> m).
Proof.
  unfold umap_iterate.
  apply (map_fold_weak_ind (λ (r : APIData) m, r = kmap key (val <$> m))).
  - by rewrite fmap_empty, kmap_empty.
  - intros i x m' r Hi ->. unfold APIData_add.
    by rewrite fmap_insert, kmap_insert.
Qed.

Lemma size_kmap_inj {T : Type} (key : string → string) `{!Inj (=) (=) key}
    (m : gmap string T) :
  size (kmap (M2 := gmap string) key m) = size m.
Proof.
  induction m as [| i x m Hi IH] using map_ind.
  - by rewrite kmap_empty.
  - rewrite kmap_insert, !map_size_insert_None, IH; try done.
    by rewrite lookup_kmap.
Qed.

(** ** Construction *)

Section construction.
Context {TInputConnectorStrategy TOutputConnectorStrategy TMLModel : Type}.
Context `{!DefaultConstructible TInputConnectorStrategy,
          !DefaultConstructible TOutputConnectorStrategy,
          !MLModel TMLModel}.
#[local] Abbreviation Lib :=
  (MLLib TInputConnectorStrategy TOutputConnectorStrategy TMLModel).
Implicit Types this mll : Lib.

(** C10: a freshly constructed instance is quiescent: no training job is
    running, training is not available, prediction is, the algorithm is not
    online, and both measure maps are empty. *)
Theorem MLLib_ctor_quiescent (mlmodel : TMLModel) :
  _tjob_running (MLLib_ctor mlmodel : Lib) = false
  ∧ _has_train (MLLib_ctor mlmodel : Lib) = false
  ∧ _has_predict (MLLib_ctor mlmodel : Lib) = true
  ∧ _online (MLLib_ctor mlmodel : Lib) = false
  ∧ _meas (MLLib_ctor mlmodel : Lib) = ∅
  ∧ _meas_per_iter (MLLib_ctor mlmodel : Lib) = ∅.
Proof. repeat split. Qed.

(** The fresh instance holds the model it was built from. *)
Lemma MLLib_ctor_model (mlmodel : TMLModel) :
  _mlmodel (MLLib_ctor mlmodel : Lib) = mlmodel.
Proof. reflexivity. Qed.

(** The members of the new instance after a move: those of the initializer
    list are the source's, the capability flags are the values of their
    declarations. *)
Theorem MLLib_move_ctor_transfers mll :
  _meas (MLLib_move_ctor mll) = _meas mll
  ∧ _tjob_running (MLLib_move_ctor mll) = _tjob_running mll
  ∧ _inputc (MLLib_move_ctor mll) = _inputc mll
  ∧ _outputc (MLLib_move_ctor mll) = _outputc mll
  ∧ _mlmodel (MLLib_move_ctor mll) = _mlmodel mll
  ∧ _has_train (MLLib_move_ctor mll) = false
  ∧ _has_predict (MLLib_move_ctor mll) = true
  ∧ _online (MLLib_move_ctor mll) = false.
Proof. repeat split. Qed.

(** The history map is not in the initializer list of the move constructor:
    the new instance starts with an empty one. *)
Lemma MLLib_move_ctor_history mll : _meas_per_iter (MLLib_move_ctor mll) = ∅.
Proof. reflexivity. Qed.

(** ** Full clear of the repository *)

(** C1: [clear_full] turns the code of [clear_directory] on the repository
    path into the two error kinds: a positive code throws the bad-parameter
    exception, a negative code the internal exception, both with a message
    that names the repository path; zero returns normally. *)
Theorem clear_full_error_taxonomy `{!FileOps FileSystem} this (fs : FileSystem) :
  let repo := _repo (_mlmodel this) in
  let err := (clear_directory repo fs).1 in
  ((0 < err)%Z →
     ∃ msg, (clear_full this fs).1 = Throws (MLLibBadParamException msg)
            ∧ msg = "Failed opening directory " +:+ repo +:+ " for deleting files within"
            ∧ names_path msg repo)
  ∧ ((err < 0)%Z →
     ∃ msg, (clear_full this fs).1 = Throws (MLLibInternalException msg)
            ∧ msg = "Failed deleting all files in directory " +:+ repo
            ∧ names_path msg repo)
  ∧ (err = 0%Z → (clear_full this fs).1 = Returns ()).
Proof.
  intros repo err. unfold clear_full. fold repo.
  subst err. destruct (clear_directory repo fs) as [err fs']. simpl.
  repeat split.
  - intros Herr. apply Z.gtb_lt in Herr as ->. eexists. split; [done |].
    split; [done |]. by eexists _, _.
  - intros Herr.
    destruct (err >? 0)%Z eqn:Hpos; [apply Z.gtb_lt in Hpos; lia |].
    apply Z.ltb_lt in Herr as ->. eexists. split; [done |].
    split; [done |]. exists "Failed deleting all files in directory ", "".
    by rewrite append_empty_r.
  - by intros ->.
Qed.

(** The file system after [clear_full] is the one [clear_directory] left. *)
Lemma clear_full_file_system `{!FileOps FileSystem} this (fs : FileSystem) :
  (clear_full this fs).2 = (clear_directory (_repo (_mlmodel this)) fs).2.
Proof.
  unfold clear_full. destruct (clear_directory _ fs) as [err fs'].
  by repeat case_match.
Qed.
End construction.

(** ** The measure stores *)

Section measures.
Context {TInputConnectorStrategy TOutputConnectorStrategy TMLModel : Type}.
Context `{!DefaultConstructible TInputConnectorStrategy,
          !DefaultConstructible TOutputConnectorStrategy,
          !MLModel TMLModel}.
#[local] Abbreviation Lib :=
  (MLLib TInputConnectorStrategy TOutputConnectorStrategy TMLModel).
Implicit Types (this : Lib) (meas name : string) (l v : double) (ad : APIData).

(** *** Current measures *)

Lemma meas_add_meas meas l this :
  _meas (add_meas meas l this) = <[meas := l]> (_meas this).
Proof.
  unfold add_meas. destruct (_meas this !! meas) as [old |] eqn:Hfind; simpl.
  - by apply umap_assign_found.
  - by apply umap_insert_absent.
Qed.

Lemma meas_per_iter_add_meas meas l this :
  _meas_per_iter (add_meas meas l this) = _meas_per_iter this.
Proof. unfold add_meas. by destruct (_meas this !! meas). Qed.

Lemma get_meas_lookup name this :
  get_meas name this = default quiet_NaN (_meas this !! name).
Proof. unfold get_meas. by destruct (_meas this !! name). Qed.

Lemma get_meas_add_meas name l this : get_meas name (add_meas name l this) = l.
Proof. by rewrite get_meas_lookup, meas_add_meas, lookup_insert_eq. Qed.

Lemma get_meas_add_meas_ne name meas l this :
  meas ≠ name → get_meas name (add_meas meas l this) = get_meas name this.
Proof. intros Hne. by rewrite !get_meas_lookup, meas_add_meas, lookup_insert_ne. Qed.

(** An instance is determined by its members. *)
Lemma MLLib_eq this1 this2 :
  _inputc this1 = _inputc this2 → _outputc this1 = _outputc this2 →
  _has_train this1 = _has_train this2 → _has_predict this1 = _has_predict this2 →
  _mlmodel this1 = _mlmodel this2 → _libname this1 = _libname this2 →
  _meas this1 = _meas this2 → _meas_per_iter this1 = _meas_per_iter this2 →
  _tjob_running this1 = _tjob_running this2 → _online this1 = _online this2 →
  this1 = this2.
Proof. destruct this1, this2; simpl; intros; by subst. Qed.

Lemma add_meas_others meas l this :
  _inputc (add_meas meas l this) = _inputc this
  ∧ _outputc (add_meas meas l this) = _outputc this
  ∧ _has_train (add_meas meas l this) = _has_train this
  ∧ _has_predict (add_meas meas l this) = _has_predict this
  ∧ _mlmodel (add_meas meas l this) = _mlmodel this
  ∧ _libname (add_meas meas l this) = _libname this
  ∧ _tjob_running (add_meas meas l this) = _tjob_running this
  ∧ _online (add_meas meas l this) = _online this.
Proof. unfold add_meas. by destruct (_meas this !! meas). Qed.

(** C5: [add_meas] is an upsert and the last writer wins: after the calls
    [add_meas(name, v1)], ..., [add_meas(name, vn)], [get_meas(name)] is
    [vn]; and a call repeated leaves the instance as the first one left it. *)
Theorem add_meas_last_writer_wins name this :
  (∀ (vs : list double) (vn : double),
     get_meas name (foldl (λ this' v, add_meas name v this') this (vs ++ [vn])) = vn)
  ∧ (∀ v, add_meas name v (add_meas name v this) = add_meas name v this).
Proof.
  split.
  - intros vs vn. rewrite foldl_app. simpl. apply get_meas_add_meas.
  - intros v.
    destruct (add_meas_others name v (add_meas name v this))
      as (? & ? & ? & ? & ? & ? & ? & ?).
    apply MLLib_eq; try done.
    + by rewrite !meas_add_meas, insert_insert_eq.
    + by rewrite meas_per_iter_add_meas.
Qed.

(** The loop of [collect_measures] leaves one entry per measure. *)
Lemma umap_iterate_add_same {T : Type} (val : T → ad_variant_type) (m : gmap string T) :
  umap_iterate (λ first second acc, APIData_add first (val second) acc) ∅ m = val <$> m.
Proof.
  unfold umap_iterate.
  apply (map_fold_weak_ind (λ (r : APIData) m, r = val <$> m)).
  - by rewrite fmap_empty.
  - intros i x m' r Hi ->. unfold APIData_add. by rewrite fmap_insert.
Qed.

Lemma collect_measures_spec this ad :
  collect_measures this ad
  = APIData_add "measure" (ad_apidata (ad_double <$> _meas this)) ad.
Proof. unfold collect_measures. by rewrite umap_iterate_add_same. Qed.

Lemma add_all_meas_cons meas l sets this :
  add_all_meas ((meas, l) :: sets) this = add_all_meas sets (add_meas meas l this).
Proof. reflexivity. Qed.

Lemma add_all_meas_untouched sets this name :
  name ∉ sets.*1 → _meas (add_all_meas sets this) !! name = _meas this !! name.
Proof.
  revert this. induction sets as [| [meas l] sets IH]; intros this Hnot; [done |].
  simpl in Hnot. apply not_elem_of_cons in Hnot as [Hne Hnot].
  rewrite add_all_meas_cons, IH by done.
  by rewrite meas_add_meas, lookup_insert_ne.
Qed.

Lemma add_all_meas_lookup sets this name v :
  NoDup sets.*1 → (name, v) ∈ sets →
  _meas (add_all_meas sets this) !! name = Some v.
Proof.
  revert this. induction sets as [| [meas l] sets IH]; intros this Hnd Hin.
  - by apply elem_of_nil in Hin.
  - simpl in Hnd. apply NoDup_cons in Hnd as [Hfresh Hnd].
    apply elem_of_cons in Hin as [[= -> ->] | Hin].
    + rewrite add_all_meas_cons, add_all_meas_untouched by done.
      by rewrite meas_add_meas, lookup_insert_eq.
    + rewrite add_all_meas_cons. by apply IH.
Qed.

Lemma add_all_meas_size sets this :
  NoDup sets.*1 → (∀ name, name ∈ sets.*1 → _meas this !! name = None) →
  size (_meas (add_all_meas sets this)) = size (_meas this) + length sets.
Proof.
  revert this. induction sets as [| [meas l] sets IH]; intros this Hnd Hnew.
  - simpl. lia.
  - simpl in Hnd, Hnew. apply NoDup_cons in Hnd as [Hfresh Hnd].
    rewrite add_all_meas_cons, IH; [| done |].
    + rewrite meas_add_meas, map_size_insert_None; [simpl; lia |].
      apply Hnew. left.
    + intros name Hname. rewrite meas_add_meas, lookup_insert_ne.
      * apply Hnew. by right.
      * by intros ->.
Qed.

(** C9: after [add_meas] on N distinct names of a fresh instance,
    [collect_measures] writes under the one field ["measure"] a data object
    with exactly N entries, one per name, each holding the value set for
    that name. *)
Theorem collect_measures_distinct (mlmodel : TMLModel)
    (sets : list (string * double)) ad :
  NoDup sets.*1 →
  ∃ meas : APIData,
    collect_measures (add_all_meas sets (MLLib_ctor mlmodel : Lib)) ad
    = APIData_add "measure" (ad_apidata meas) ad
    ∧ size meas = length sets
    ∧ (∀ name v, (name, v) ∈ sets → meas !! name = Some (ad_double v))
    ∧ (∀ name, is_Some (meas !! name) → name ∈ sets.*1).
Proof.
  intros Hnd.
  eexists. split; [apply collect_measures_spec |]. repeat split.
  - rewrite map_size_fmap, add_all_meas_size; [done | done |].
    intros name _. apply lookup_empty.
  - intros name v Hin. by rewrite lookup_fmap, (add_all_meas_lookup sets _ name v).
  - intros name. rewrite lookup_fmap, fmap_is_Some.
    destruct (decide (name ∈ sets.*1)) as [| Hnot]; [done |].
    rewrite add_all_meas_untouched by done. simpl. rewrite lookup_empty.
    by intros [? ?].
Qed.

(** *** Measure history *)

Lemma meas_per_iter_add_meas_per_iter meas l this :
  _meas_per_iter (add_meas_per_iter meas l this)
  = <[meas := push_back (default [] (_meas_per_iter this !! meas)) l]> (_meas_per_iter this).
Proof.
  unfold add_meas_per_iter.
  destruct (_meas_per_iter this !! meas) as [second |] eqn:Hfind; simpl.
  - by apply (umap_mutate_found (λ second, push_back second l)).
  - by apply umap_insert_absent.
Qed.

Lemma meas_add_meas_per_iter meas l this :
  _meas (add_meas_per_iter meas l this) = _meas this.
Proof. unfold add_meas_per_iter. by destruct (_meas_per_iter this !! meas). Qed.

Lemma meas_clear_all_meas_per_iter this :
  _meas (clear_all_meas_per_iter this) = _meas this.
Proof. reflexivity. Qed.

Lemma meas_per_iter_clear_all_meas_per_iter this :
  _meas_per_iter (clear_all_meas_per_iter this) = ∅.
Proof. reflexivity. Qed.

(** C6: [add_meas_per_iter] starts a one-element sequence for an absent
    name, extends the sequence of a present name by the value at its end,
    and leaves the sequence of every other name as it was. *)
Theorem add_meas_per_iter_appends name v this :
  (_meas_per_iter this !! name = None →
     _meas_per_iter (add_meas_per_iter name v this) !! name = Some [v])
  ∧ (∀ seq, _meas_per_iter this !! name = Some seq →
     _meas_per_iter (add_meas_per_iter name v this) !! name = Some (seq ++ [v])%list)
  ∧ (∀ other, other ≠ name →
     _meas_per_iter (add_meas_per_iter name v this) !! other
     = _meas_per_iter this !! other).
Proof.
  rewrite meas_per_iter_add_meas_per_iter. repeat split.
  - intros ->. by rewrite lookup_insert_eq.
  - intros seq ->. by rewrite lookup_insert_eq.
  - intros other Hne. by rewrite lookup_insert_ne.
Qed.

Lemma collect_measures_history_spec this ad :
  collect_measures_history this ad
  = APIData_add "measure_hist"
      (ad_apidata (kmap (λ name, name +:+ "_hist") (ad_vdouble <$> _meas_per_iter this))) ad.
Proof.
  unfold collect_measures_history.
  by rewrite (umap_iterate_add (λ name, name +:+ "_hist")).
Qed.

(** C8: [collect_measures_history] writes under the field ["measure_hist"] a
    data object with one field per measure of the history, named by the
    measure with ["_hist"] appended and holding the measure's whole
    sequence; it has no other field. *)
Theorem collect_measures_history_fields this ad :
  ∃ meas_hist : APIData,
    collect_measures_history this ad = APIData_add "measure_hist" (ad_apidata meas_hist) ad
    ∧ collect_measures_history this ad !! "measure_hist" = Some (ad_apidata meas_hist)
    ∧ (∀ name, meas_hist !! (name +:+ "_hist") = ad_vdouble <$> _meas_per_iter this !! name)
    ∧ (∀ key, is_Some (meas_hist !! key) →
         ∃ name, key = name +:+ "_hist" ∧ is_Some (_meas_per_iter this !! name))
    ∧ size meas_hist = size (_meas_per_iter this).
Proof.
  eexists. split; [apply collect_measures_history_spec |].
  rewrite collect_measures_history_spec. unfold APIData_add. repeat split.
  - by rewrite lookup_insert_eq.
  - intros name. by rewrite (lookup_kmap (λ name, name +:+ "_hist")), lookup_fmap.
  - intros key [val Hval].
    apply (lookup_kmap_Some (λ name, name +:+ "_hist")) in Hval as (name & -> & Hval).
    exists name. split; [done |]. rewrite lookup_fmap in Hval.
    by destruct (_meas_per_iter this !! name).
  - by rewrite (size_kmap_inj (λ name, name +:+ "_hist")), map_size_fmap.
Qed.

(** The values appended for a name are stored after those it had, in the
    order of the calls. *)
Lemma meas_per_iter_add_all_meas_per_iter name l (ls : list double) this :
  _meas_per_iter (add_all_meas_per_iter name (l :: ls) this)
  = <[name := (default [] (_meas_per_iter this !! name) ++ l :: ls)%list]>
      (_meas_per_iter this).
Proof.
  revert l this. induction ls as [| l' ls IH]; intros l this.
  - apply meas_per_iter_add_meas_per_iter.
  - change (add_all_meas_per_iter name (l :: l' :: ls) this)
      with (add_all_meas_per_iter name (l' :: ls) (add_meas_per_iter name l this)).
    rewrite IH, meas_per_iter_add_meas_per_iter, lookup_insert_eq, insert_insert_eq.
    unfold push_back. simpl. by rewrite <- app_assoc.
Qed.

(** X2: after a clear, what is collected for a name is what was appended
    since, in the order of the calls. *)
Lemma collect_measures_history_order this ad name l (ls : list double) :
  collect_measures_history
    (add_all_meas_per_iter name (l :: ls) (clear_all_meas_per_iter this)) ad
  = APIData_add "measure_hist"
      (ad_apidata {[ name +:+ "_hist" := ad_vdouble (l :: ls) ]}) ad.
Proof.
  rewrite collect_measures_history_spec, meas_per_iter_add_all_meas_per_iter.
  rewrite meas_per_iter_clear_all_meas_per_iter, lookup_empty. simpl.
  by rewrite insert_empty, map_fmap_singleton, kmap_singleton.
Qed.

(** C7: after [clear_all_meas_per_iter], [collect_measures_history] writes a
    data object without any field; after one [add_meas_per_iter(name, v)]
    more, it writes exactly the one sequence [[v]] for that name. *)
Theorem clear_all_then_collect this ad name v :
  collect_measures_history (clear_all_meas_per_iter this) ad
  = APIData_add "measure_hist" (ad_apidata ∅) ad
  ∧ collect_measures_history (add_meas_per_iter name v (clear_all_meas_per_iter this)) ad
    = APIData_add "measure_hist" (ad_apidata {[ name +:+ "_hist" := ad_vdouble [v] ]}) ad.
Proof.
  split.
  - unfold collect_measures_history, umap_iterate.
    by rewrite meas_per_iter_clear_all_meas_per_iter, map_fold_empty.
  - unfold collect_measures_history, umap_iterate.
    rewrite meas_per_iter_add_meas_per_iter, meas_per_iter_clear_all_meas_per_iter.
    rewrite lookup_empty. simpl. rewrite insert_empty, map_fold_singleton.
    unfold APIData_add at 2. by rewrite insert_empty.
Qed.
End measures.

(** ** Over the lifetime of an instance *)

Section lifetime_facts.
Context {TInputConnectorStrategy TOutputConnectorStrategy TMLModel FileSystem : Type}.
Context `{!DefaultConstructible TInputConnectorStrategy,
          !DefaultConstructible TOutputConnectorStrategy,
          !MLModel TMLModel, !FileOps FileSystem}.
#[local] Abbreviation Lib :=
  (MLLib TInputConnectorStrategy TOutputConnectorStrategy TMLModel).
Implicit Types (this : Lib) (fs : FileSystem) (w : Lib * FileSystem)
  (c : call) (cs : list call) (name : string).

Lemma run_cons c cs w : run (c :: cs) w = run cs (step c w).
Proof. reflexivity. Qed.

Lemma run_app cs1 cs2 w : run (cs1 ++ cs2) w = run cs2 (run cs1 w).
Proof. apply foldl_app. Qed.

(** What one call does to the value that [get_meas] reads. *)
Lemma get_meas_step name c w :
  get_meas name (step c w).1
  = match c with
    | call_add_meas meas l => if decide (meas = name) then l else get_meas name w.1
    | _ => get_meas name w.1
    end.
Proof.
  destruct c as [| | meas l | ad | meas l | meas | ad]; simpl; try done.
  - by rewrite !get_meas_lookup, meas_add_meas_per_iter.
  - case_decide as Hname.
    + subst. apply get_meas_add_meas.
    + by apply get_meas_add_meas_ne.
Qed.

Lemma get_meas_run name cs w (acc : option double) (d : double) :
  get_meas name w.1 = default d acc →
  get_meas name (run cs w).1
  = default d (foldl (λ acc c,
                        match c with
                        | call_add_meas meas l => if decide (meas = name) then Some l else acc
                        | _ => acc
                        end) acc cs).
Proof.
  revert w acc. induction cs as [| c cs IH]; intros w acc Hacc; [done |].
  rewrite run_cons. simpl. apply IH. rewrite get_meas_step.
  destruct c; try done. by case_decide.
Qed.

(** C4: [get_meas] always returns a value: on an instance where the name
    was never set it is the quiet NaN, and once the name was set it is the
    value of the last [add_meas] for that name, whatever calls were made
    in between and after. *)
Theorem get_meas_never_fails name (mlmodel : TMLModel) fs cs :
  get_meas name (run cs (MLLib_ctor mlmodel : Lib, fs)).1
  = match last_add_meas name cs with
    | Some l => l
    | None => quiet_NaN
    end.
Proof.
  unfold last_add_meas.
  rewrite (get_meas_run name cs _ None quiet_NaN) by done.
  by destruct (foldl _ None cs).
Qed.

(** X1: on any instance and over any sequence of calls, [get_meas] reads
    the value of the last [add_meas] of the sequence for that name, or else
    what it read before the sequence. *)
Lemma get_meas_after_calls name this fs cs :
  get_meas name (run cs (this, fs)).1
  = default (get_meas name this) (last_add_meas name cs).
Proof. unfold last_add_meas. by apply get_meas_run. Qed.

(** A call other than [clear_all_meas_per_iter] keeps what the history
    holds for a name and may only add to its end. *)
Lemma meas_per_iter_step_prefix name c w (old : list double) :
  is_clear_all_meas_per_iter c = false →
  _meas_per_iter w.1 !! name = Some old →
  ∃ new, _meas_per_iter (step c w).1 !! name = Some new ∧ old `prefix_of` new.
Proof.
  intros Hc Hold.
  destruct c as [| | meas l | ad | meas l | meas | ad]; simpl; try done;
    try (by exists old).
  - rewrite meas_per_iter_add_meas_per_iter.
    destruct (decide (meas = name)) as [-> | Hne].
    + rewrite lookup_insert_eq, Hold. simpl. eexists. split; [done |].
      unfold push_back. by apply prefix_app_r.
    + rewrite lookup_insert_ne by done. by exists old.
  - rewrite meas_per_iter_add_meas. by exists old.
Qed.

(** C3, as the code has it: over any sequence of calls without
    [clear_all_meas_per_iter], the values recorded for a name of the history
    stay, in their order, as a prefix of the sequence stored for it. *)
Theorem meas_per_iter_grows name this fs cs (old : list double) :
  Forall (λ c, is_clear_all_meas_per_iter c = false) cs →
  _meas_per_iter this !! name = Some old →
  ∃ new, _meas_per_iter (run cs (this, fs)).1 !! name = Some new
         ∧ old `prefix_of` new.
Proof.
  intros Hcs. change this with (this, fs).1 at 1. generalize (this, fs). clear this fs.
  revert old. induction Hcs as [| c cs Hc Hcs IH]; intros old w Hold.
  - by exists old.
  - rewrite run_cons.
    destruct (meas_per_iter_step_prefix name c w old Hc Hold) as (mid & Hmid & Hpre1).
    destruct (IH mid (step c w) Hmid) as (new & Hnew & Hpre2).
    exists new. split; [done |]. by etrans.
Qed.

(** [clear_all_meas_per_iter] is the call that forgets: whatever came before
    it, the history is empty after it. *)
Lemma meas_per_iter_after_clear_all cs w :
  _meas_per_iter (run (cs ++ [call_clear_all_meas_per_iter]) w).1 = ∅.
Proof. by rewrite run_app. Qed.
End lifetime_facts.

(** ** The properties at work on the small instantiation *)

Example toy_get_meas :
  get_meas "loss" toy_lib = 0.25%float ∧ get_meas "acc" toy_lib = quiet_NaN.
Proof. split; reflexivity. Qed.

Example toy_add_meas_twice :
  get_meas "acc" (add_meas "acc" 0.75%float (add_meas "acc" 0.5%float toy_lib)) = 0.75%float.
Proof. reflexivity. Qed.

Example toy_clear_full_sweeps :
  (clear_full toy_lib toy_fs).2 !! "/srv/model" = Some []
  ∧ (clear_full (MLLib_ctor "/srv/locked" : ToyLib) toy_fs).2 !! "/srv/locked"
    = Some [("weights", false)].
Proof. split; reflexivity. Qed.

Example toy_collect_measures :
  collect_measures toy_lib ∅ !! "measure"
  = Some (ad_apidata {[ "loss" := ad_double 0.25%float ]}).
Proof. vm_compute. reflexivity. Qed.

Example toy_collect_measures_history :
  collect_measures_history toy_lib ∅ !! "measure_hist"
  = Some (ad_apidata {[ "loss_hist" := ad_vdouble [1%float; 0.5%float; 0.25%float] ]}).
Proof. vm_compute. reflexivity. Qed.

(** C1 on the three kinds of repository: one that cannot be opened, one with
    an entry that cannot be removed, one that empties. *)
Lemma clear_full_error_taxonomy_witness :
  (clear_full (MLLib_ctor "/srv/missing" : ToyLib) toy_fs).1
  = Throws (MLLibBadParamException
              "Failed opening directory /srv/missing for deleting files within")
  ∧ (clear_full (MLLib_ctor "/srv/locked" : ToyLib) toy_fs).1
    = Throws (MLLibInternalException "Failed deleting all files in directory /srv/locked")
  ∧ (clear_full toy_lib toy_fs).1 = Returns ().
Proof.
  split; [| split].
  - destruct (proj1 (clear_full_error_taxonomy (MLLib_ctor "/srv/missing" : ToyLib) toy_fs))
      as (msg & -> & -> & _); [reflexivity | reflexivity].
  - destruct (proj1 (proj2
        (clear_full_error_taxonomy (MLLib_ctor "/srv/locked" : ToyLib) toy_fs)))
      as (msg & -> & -> & _); [reflexivity | reflexivity].
  - apply (proj2 (proj2 (clear_full_error_taxonomy toy_lib toy_fs))). reflexivity.
Defined.

(** C2: the move constructor, documented as a copy-constructor, does not
    transfer all of the state: moved from [toy_lib], the new instance has
    lost the [_has_train] and [_online] flags and the history of its source,
    which are missing from its initializer list. *)
Lemma MLLib_move_ctor_resets :
  _has_train (MLLib_move_ctor toy_lib) ≠ _has_train toy_lib
  ∧ _online (MLLib_move_ctor toy_lib) ≠ _online toy_lib
  ∧ _meas_per_iter (MLLib_move_ctor toy_lib) !! "loss" ≠ _meas_per_iter toy_lib !! "loss".
Proof. repeat split; discriminate. Qed.

(** C3 as stated fails: [clear_all_meas_per_iter] removes what was recorded
    for ["loss"]. *)
Lemma meas_per_iter_shrinks_on_clear_all :
  _meas_per_iter toy_lib !! "loss" = Some [1%float; 0.5%float; 0.25%float]
  ∧ _meas_per_iter (run [call_clear_all_meas_per_iter] (toy_lib, toy_fs)).1 !! "loss" = None.
Proof. split; reflexivity. Qed.

Lemma meas_per_iter_grows_witness :
  ∃ new,
    _meas_per_iter
      (run [call_add_meas_per_iter "loss" 0.125%float; call_add_meas "loss" 0.125%float;
            call_clear_full; call_add_meas_per_iter "acc" 0.5%float;
            call_collect_measures_history ∅]
           (toy_lib, toy_fs)).1 !! "loss" = Some new
    ∧ [1%float; 0.5%float; 0.25%float] `prefix_of` new.
Proof.
  apply meas_per_iter_grows; [repeat constructor | reflexivity].
Defined.

Lemma add_meas_per_iter_appends_witness :
  _meas_per_iter (add_meas_per_iter "acc" 0.5%float toy_lib) !! "acc" = Some [0.5%float]
  ∧ _meas_per_iter (add_meas_per_iter "loss" 0.125%float toy_lib) !! "loss"
    = Some [1%float; 0.5%float; 0.25%float; 0.125%float]
  ∧ _meas_per_iter (add_meas_per_iter "acc" 0.5%float toy_lib) !! "loss"
    = _meas_per_iter toy_lib !! "loss".
Proof.
  split; [| split].
  - apply (proj1 (add_meas_per_iter_appends "acc" 0.5%float toy_lib)). reflexivity.
  - apply (proj1 (proj2 (add_meas_per_iter_appends "loss" 0.125%float toy_lib))
             [1%float; 0.5%float; 0.25%float]). reflexivity.
  - apply (proj2 (proj2 (add_meas_per_iter_appends "acc" 0.5%float toy_lib)) "loss").
    discriminate.
Defined.

Lemma collect_measures_history_fields_witness :
  ∃ meas_hist : APIData,
    collect_measures_history toy_lib ∅ !! "measure_hist" = Some (ad_apidata meas_hist)
    ∧ meas_hist !! "loss_hist" = Some (ad_vdouble [1%float; 0.5%float; 0.25%float])
    ∧ (∃ name, "loss_hist" = name +:+ "_hist" ∧ is_Some (_meas_per_iter toy_lib !! name))
    ∧ size meas_hist = 1.
Proof.
  destruct (collect_measures_history_fields toy_lib ∅)
    as (meas_hist & _ & Hfield & Hnames & Honly & Hsize).
  exists meas_hist. split; [exact Hfield |].
  assert (meas_hist !! "loss_hist" = Some (ad_vdouble [1%float; 0.5%float; 0.25%float]))
    as Hloss by apply (Hnames "loss").
  split; [exact Hloss |]. split; [| exact Hsize].
  apply Honly. rewrite Hloss. by eexists.
Defined.

Lemma collect_measures_distinct_witness :
  ∃ meas : APIData,
    collect_measures
      (add_all_meas [("loss", 0.5%float); ("acc", 0.75%float); ("f1", 0.5%float)]
                    (MLLib_ctor "/srv/model" : ToyLib)) ∅
    = APIData_add "measure" (ad_apidata meas) ∅
    ∧ size meas = 3
    ∧ (∀ name v, (name, v) ∈ [("loss", 0.5%float); ("acc", 0.75%float); ("f1", 0.5%float)] →
                 meas !! name = Some (ad_double v))
    ∧ (∀ name, is_Some (meas !! name) → name ∈ ["loss"; "acc"; "f1"]).
Proof.
  apply (collect_measures_distinct (TInputConnectorStrategy := unit)
           (TOutputConnectorStrategy := unit) "/srv/model"
           [("loss", 0.5%float); ("acc", 0.75%float); ("f1", 0.5%float)] ∅).
  simpl. by apply (bool_decide_unpack _).
Defined.

(** * Further properties of the class *)

Section composition.
Context {TInputConnectorStrategy TOutputConnectorStrategy TMLModel : Type}.
Context `{!DefaultConstructible TInputConnectorStrategy,
          !DefaultConstructible TOutputConnectorStrategy,
          !MLModel TMLModel}.
#[local] Abbreviation Lib :=
  (MLLib TInputConnectorStrategy TOutputConnectorStrategy TMLModel).
Implicit Types (this mll : Lib) (meas name : string) (l v : double) (ad : APIData).

Lemma add_meas_per_iter_others meas l this :
  _inputc (add_meas_per_iter meas l this) = _inputc this
  ∧ _outputc (add_meas_per_iter meas l this) = _outputc this
  ∧ _has_train (add_meas_per_iter meas l this) = _has_train this
  ∧ _has_predict (add_meas_per_iter meas l this) = _has_predict this
  ∧ _mlmodel (add_meas_per_iter meas l this) = _mlmodel this
  ∧ _libname (add_meas_per_iter meas l this) = _libname this
  ∧ _tjob_running (add_meas_per_iter meas l this) = _tjob_running this
  ∧ _online (add_meas_per_iter meas l this) = _online this.
Proof. unfold add_meas_per_iter. by destruct (_meas_per_iter this !! meas). Qed.

Lemma configuration_add_meas meas l this :
  configuration (add_meas meas l this) = configuration this.
Proof.
  destruct (add_meas_others meas l this) as (? & ? & ? & ? & ? & ? & ? & ?).
  unfold configuration. congruence.
Qed.

Lemma configuration_add_meas_per_iter meas l this :
  configuration (add_meas_per_iter meas l this) = configuration this.
Proof.
  destruct (add_meas_per_iter_others meas l this) as (? & ? & ? & ? & ? & ? & ? & ?).
  unfold configuration. congruence.
Qed.

(** Two instances with the same members outside the stores and the same
    stores are the same instance. *)
Lemma MLLib_eq_stores this1 this2 :
  configuration this1 = configuration this2 →
  _meas this1 = _meas this2 → _meas_per_iter this1 = _meas_per_iter this2 →
  this1 = this2.
Proof. unfold configuration. intros [= ] ? ?. by apply MLLib_eq. Qed.

(** The current measures survive a move: the moved instance reads every
    measure as its source did, the never-set ones as NaN, and collects the
    same data object. *)
Lemma MLLib_move_ctor_keeps_measures mll :
  (∀ name, get_meas name (MLLib_move_ctor mll) = get_meas name mll)
  ∧ (∀ ad, collect_measures (MLLib_move_ctor mll) ad = collect_measures mll ad)
  ∧ (∀ name v, get_meas name (add_meas name v (MLLib_move_ctor mll)) = v).
Proof.
  split; [| split].
  - done.
  - intros ad. by rewrite !collect_measures_spec.
  - intros name v. apply get_meas_add_meas.
Qed.

(** X3: The history does not survive a move: whatever the source recorded, the
    moved instance collects a history without any field, and its first
    append for a name starts a new sequence. *)
Theorem MLLib_move_ctor_forgets_history mll :
  (∀ ad, collect_measures_history (MLLib_move_ctor mll) ad
         = APIData_add "measure_hist" (ad_apidata ∅) ad)
  ∧ (∀ name v,
       _meas_per_iter (add_meas_per_iter name v (MLLib_move_ctor mll)) !! name = Some [v]).
Proof.
  split.
  - intros ad. rewrite collect_measures_history_spec. simpl.
    by rewrite fmap_empty, kmap_empty.
  - intros name v. rewrite meas_per_iter_add_meas_per_iter. simpl.
    by rewrite lookup_empty, lookup_insert_eq.
Qed.

(** X4: Writes of current measures compose: a later write to the same name
    makes the earlier one unobservable, and writes to different names can be
    swapped. *)
Theorem add_meas_compose this :
  (∀ name v1 v2, add_meas name v2 (add_meas name v1 this) = add_meas name v2 this)
  ∧ (∀ name1 name2 v1 v2, name1 ≠ name2 →
       add_meas name1 v1 (add_meas name2 v2 this)
       = add_meas name2 v2 (add_meas name1 v1 this)).
Proof.
  split.
  - intros name v1 v2. apply MLLib_eq_stores.
    + by rewrite !configuration_add_meas.
    + by rewrite !meas_add_meas, insert_insert_eq.
    + by rewrite !meas_per_iter_add_meas.
  - intros name1 name2 v1 v2 Hne. apply MLLib_eq_stores.
    + by rewrite !configuration_add_meas.
    + rewrite !meas_add_meas. by apply insert_insert_ne.
    + by rewrite !meas_per_iter_add_meas.
Qed.

(** X5: Appends to the histories of different names can be swapped. *)
Theorem add_meas_per_iter_commute name1 name2 v1 v2 this :
  name1 ≠ name2 →
  add_meas_per_iter name1 v1 (add_meas_per_iter name2 v2 this)
  = add_meas_per_iter name2 v2 (add_meas_per_iter name1 v1 this).
Proof.
  intros Hne. apply MLLib_eq_stores.
  - by rewrite !configuration_add_meas_per_iter.
  - by rewrite !meas_add_meas_per_iter.
  - rewrite !meas_per_iter_add_meas_per_iter.
    rewrite !lookup_insert_ne by done. by apply insert_insert_ne.
Qed.

(** X6: The two stores are independent: a write of a current measure can be
    swapped with an append to the history and with the clear of the history,
    whatever the names. *)
Theorem add_meas_independent_of_history name v this :
  (∀ meas l, add_meas name v (add_meas_per_iter meas l this)
             = add_meas_per_iter meas l (add_meas name v this))
  ∧ add_meas name v (clear_all_meas_per_iter this)
    = clear_all_meas_per_iter (add_meas name v this).
Proof.
  split.
  - intros meas l. apply MLLib_eq_stores.
    + by rewrite configuration_add_meas, !configuration_add_meas_per_iter,
        configuration_add_meas.
    + by rewrite meas_add_meas, !meas_add_meas_per_iter, meas_add_meas.
    + by rewrite meas_per_iter_add_meas, !meas_per_iter_add_meas_per_iter,
        meas_per_iter_add_meas.
  - apply MLLib_eq_stores.
    + rewrite configuration_add_meas. unfold configuration. simpl.
      destruct (add_meas_others name v this) as (? & ? & ? & ? & ? & ? & ? & ?).
      congruence.
    + by rewrite meas_add_meas, !meas_clear_all_meas_per_iter, meas_add_meas.
    + by rewrite meas_per_iter_add_meas.
Qed.

(** X7: On any instance, [collect_measures] and [get_meas] agree: the data
    object written under ["measure"] has one field per name that was set,
    holding the value [get_meas] returns for it, and no field for a name that
    was not set, although [get_meas] returns the NaN for it. *)
Theorem collect_measures_agrees_with_get_meas this ad :
  ∃ meas : APIData,
    collect_measures this ad !! "measure" = Some (ad_apidata meas)
    ∧ size meas = size (_meas this)
    ∧ (∀ name, is_Some (_meas this !! name) →
         meas !! name = Some (ad_double (get_meas name this)))
    ∧ (∀ name, _meas this !! name = None →
         meas !! name = None ∧ get_meas name this = quiet_NaN).
Proof.
  exists (ad_double <$> _meas this).
  rewrite collect_measures_spec. unfold APIData_add. split; [| split; [| split]].
  - by rewrite lookup_insert_eq.
  - by rewrite map_size_fmap.
  - intros name [v Hv]. by rewrite lookup_fmap, get_meas_lookup, Hv.
  - intros name Hnone. by rewrite lookup_fmap, get_meas_lookup, Hnone.
Qed.

(** X8: The two collects write one field each and leave the rest of the data
    object alone; as the fields differ, they can be made in either order. *)
Theorem collects_write_their_field_only this1 this2 ad :
  (∀ key, key ≠ "measure" → collect_measures this1 ad !! key = ad !! key)
  ∧ (∀ key, key ≠ "measure_hist" →
       collect_measures_history this2 ad !! key = ad !! key)
  ∧ collect_measures this1 (collect_measures_history this2 ad)
    = collect_measures_history this2 (collect_measures this1 ad).
Proof.
  split; [| split].
  - intros key Hkey. rewrite collect_measures_spec. unfold APIData_add.
    by rewrite lookup_insert_ne.
  - intros key Hkey. rewrite collect_measures_history_spec. unfold APIData_add.
    by rewrite lookup_insert_ne.
  - rewrite !collect_measures_spec, !collect_measures_history_spec.
    unfold APIData_add. by apply insert_insert_ne.
Qed.

(** X9: The outcome of [clear_full] tells the sign of the code of
    [clear_directory]: it returns only on zero, throws the bad-parameter
    exception only on a positive code and the internal exception only on a
    negative one.  Whatever the outcome, the file system is the one
    [clear_directory] left: nothing is undone before an exception. *)
Theorem clear_full_outcome_tells_code `{!FileOps FileSystem} this (fs : FileSystem) :
  let err := (clear_directory (_repo (_mlmodel this)) fs).1 in
  ((clear_full this fs).1 = Returns () ↔ err = 0%Z)
  ∧ ((∃ msg, (clear_full this fs).1 = Throws (MLLibBadParamException msg)) ↔ (0 < err)%Z)
  ∧ ((∃ msg, (clear_full this fs).1 = Throws (MLLibInternalException msg)) ↔ (err < 0)%Z)
  ∧ (clear_full this fs).2 = (clear_directory (_repo (_mlmodel this)) fs).2.
Proof.
  intros err. subst err. unfold clear_full.
  destruct (clear_directory (_repo (_mlmodel this)) fs) as [err fs']. simpl.
  destruct (err >? 0)%Z eqn:Hpos; [| destruct (err <? 0)%Z eqn:Hneg]; simpl.
  - apply Z.gtb_lt in Hpos. repeat split; try done; try lia.
    + by eexists.
    + intros [msg [=]].
  - apply Z.ltb_lt in Hneg. repeat split; try done; try lia.
    + intros [msg [=]].
    + by eexists.
  - assert (err = 0%Z) as ->.
    { apply Z.ltb_ge in Hneg. destruct (Z.gtb_spec err 0); [done | lia]. }
    repeat split; try done; try lia.
    + intros [msg [=]].
    + intros [msg [=]].
Qed.
End composition.

(** * Further properties over the lifetime of an instance *)

Section lifetime_frames.
Context {TInputConnectorStrategy TOutputConnectorStrategy TMLModel FileSystem : Type}.
Context `{!DefaultConstructible TInputConnectorStrategy,
          !DefaultConstructible TOutputConnectorStrategy,
          !MLModel TMLModel, !FileOps FileSystem}.
#[local] Abbreviation Lib :=
  (MLLib TInputConnectorStrategy TOutputConnectorStrategy TMLModel).
Implicit Types (this : Lib) (fs : FileSystem) (w : Lib * FileSystem)
  (c : call) (cs : list call) (name : string).

Lemma configuration_step c w : configuration (step c w).1 = configuration w.1.
Proof.
  destruct c as [| | meas l | ad | meas l | meas | ad]; simpl; try done.
  - apply configuration_add_meas_per_iter.
  - apply configuration_add_meas.
Qed.

(** X10: No sequence of calls of the methods defined in the header changes the
    connectors, the capability flags, the model, the library name or the
    training flag: in particular the class never raises or lowers
    [_tjob_running] itself, and [clear_full] keeps the repository path. *)
Theorem run_keeps_configuration cs w :
  configuration (run cs w).1 = configuration w.1
  ∧ _tjob_running (run cs w).1 = _tjob_running w.1
  ∧ _repo (_mlmodel (run cs w).1) = _repo (_mlmodel w.1).
Proof.
  assert (configuration (run cs w).1 = configuration w.1) as Hconf.
  { revert w. induction cs as [| c cs IH]; intros w; [done |].
    by rewrite run_cons, IH, configuration_step. }
  split; [done |]. unfold configuration in Hconf. injection Hconf as _ _ _ _ Hm _ Ht _.
  by rewrite Hm, Ht.
Qed.

(** X12: The current measures have no reset: a name that was set stays set over
    any sequence of calls, [clear_all_meas_per_iter] included. *)
Theorem run_keeps_measures_set cs w name :
  is_Some (_meas w.1 !! name) → is_Some (_meas (run cs w).1 !! name).
Proof.
  revert w. induction cs as [| c cs IH]; intros w Hset; [done |].
  rewrite run_cons. apply IH.
  destruct c as [| | meas l | ad | meas l | meas | ad]; simpl; try done.
  - by rewrite meas_add_meas_per_iter.
  - rewrite meas_add_meas. destruct (decide (meas = name)) as [-> | Hne].
    + by rewrite lookup_insert_eq.
    + by rewrite lookup_insert_ne.
Qed.

Lemma meas_per_iter_run name cs w (acc : list double) :
  _meas_per_iter w.1 !! name = stored_sequence acc →
  _meas_per_iter (run cs w).1 !! name
  = stored_sequence
      (foldl (λ acc c,
                match c with
                | call_add_meas_per_iter meas l =>
                    if decide (meas = name) then push_back acc l else acc
                | call_clear_all_meas_per_iter => []
                | _ => acc
                end) acc cs).
Proof.
  revert w acc. induction cs as [| c cs IH]; intros w acc Hacc; [exact Hacc |].
  rewrite run_cons. simpl. apply IH.
  destruct c as [| | meas l | ad | meas l | meas | ad]; simpl; try done.
  - rewrite meas_per_iter_add_meas_per_iter. case_decide as Hname.
    + subst meas. rewrite lookup_insert_eq, Hacc. by destruct acc.
    + by rewrite lookup_insert_ne.
  - by rewrite meas_per_iter_add_meas.
Qed.

(** X13: The history of a name, on an instance built by the constructor, is
    what was appended for that name since the last
    [clear_all_meas_per_iter], in the order of the calls; the name is absent
    when nothing was appended since. *)
Theorem meas_per_iter_is_appended_since_clear name (mlmodel : TMLModel) fs cs :
  _meas_per_iter (run cs (MLLib_ctor mlmodel : Lib, fs)).1 !! name
  = stored_sequence (appended_since_clear name cs).
Proof. unfold appended_since_clear. by apply meas_per_iter_run. Qed.

Lemma meas_per_iter_step_nonempty c w :
  map_Forall (λ _ (seq : list double), 0 < length seq) (_meas_per_iter w.1) →
  map_Forall (λ _ (seq : list double), 0 < length seq) (_meas_per_iter (step c w).1).
Proof.
  intros Hinv.
  destruct c as [| | meas l | ad | meas l | meas | ad]; simpl;
    [done | apply map_Forall_empty | | done | | done | done].
  - rewrite meas_per_iter_add_meas_per_iter. apply map_Forall_insert_2; [| done].
    unfold push_back. rewrite length_app. simpl. lia.
  - by rewrite meas_per_iter_add_meas.
Qed.

(** X14: The history never holds an empty sequence: the property holds on a
    fresh instance and every call keeps it, so a name that is present has
    at least one value. *)
Theorem meas_per_iter_sequences_nonempty cs :
  (∀ (mlmodel : TMLModel) fs,
     map_Forall (λ _ (seq : list double), 0 < length seq)
                (_meas_per_iter (run cs (MLLib_ctor mlmodel : Lib, fs)).1))
  ∧ (∀ w, map_Forall (λ _ (seq : list double), 0 < length seq) (_meas_per_iter w.1) →
          map_Forall (λ _ (seq : list double), 0 < length seq)
                     (_meas_per_iter (run cs w).1)).
Proof.
  assert (∀ w, map_Forall (λ _ (seq : list double), 0 < length seq) (_meas_per_iter w.1) →
               map_Forall (λ _ (seq : list double), 0 < length seq)
                          (_meas_per_iter (run cs w).1)) as Hkeep.
  { induction cs as [| c cs IH]; intros w Hinv; [done |].
    rewrite run_cons. apply IH. by apply meas_per_iter_step_nonempty. }
  split; [| done]. intros mlmodel fs. apply Hkeep. simpl. apply map_Forall_empty.
Qed.
End lifetime_frames.

(** * The further properties at work on the small instantiation *)

Lemma add_meas_compose_witness :
  add_meas "acc" 0.5%float (add_meas "loss" 0.125%float toy_lib)
  = add_meas "loss" 0.125%float (add_meas "acc" 0.5%float toy_lib).
Proof. apply (proj2 (add_meas_compose toy_lib)). discriminate. Defined.

Lemma add_meas_per_iter_commute_witness :
  add_meas_per_iter "acc" 0.5%float (add_meas_per_iter "loss" 0.125%float toy_lib)
  = add_meas_per_iter "loss" 0.125%float (add_meas_per_iter "acc" 0.5%float toy_lib).
Proof. apply add_meas_per_iter_commute. discriminate. Defined.

Lemma collect_measures_agrees_with_get_meas_witness :
  ∃ meas : APIData,
    collect_measures toy_lib ∅ !! "measure" = Some (ad_apidata meas)
    ∧ meas !! "loss" = Some (ad_double (get_meas "loss" toy_lib))
    ∧ meas !! "acc" = None.
Proof.
  destruct (collect_measures_agrees_with_get_meas toy_lib ∅)
    as (meas & Hfield & _ & Hset & Hunset).
  exists meas. split; [exact Hfield |]. split.
  - apply Hset. by eexists.
  - apply Hunset. reflexivity.
Defined.

Lemma collects_write_their_field_only_witness :
  collect_measures toy_lib {[ "status" := ad_double 0%float ]} !! "status"
  = Some (ad_double 0%float)
  ∧ collect_measures_history toy_lib {[ "status" := ad_double 0%float ]} !! "status"
    = Some (ad_double 0%float).
Proof.
  destruct (collects_write_their_field_only toy_lib toy_lib
              {[ "status" := ad_double 0%float ]}) as (Hmeas & Hhist & _).
  split.
  - rewrite Hmeas; [reflexivity | discriminate].
  - rewrite Hhist; [reflexivity | discriminate].
Defined.

Lemma run_keeps_measures_set_witness :
  is_Some
    (_meas (run [call_clear_all_meas_per_iter; call_clear_full;
                 call_add_meas "acc" 0.5%float]
                (toy_lib, toy_fs)).1 !! "loss").
Proof. apply (run_keeps_measures_set _ (toy_lib, toy_fs)). by eexists. Defined.

Lemma meas_per_iter_sequences_nonempty_witness :
  map_Forall (λ _ (seq : list double), 0 < length seq)
    (_meas_per_iter
       (run [call_add_meas_per_iter "acc" 0.5%float; call_clear_full]
            (toy_lib, toy_fs)).1).
Proof.
  apply (proj2 (meas_per_iter_sequences_nonempty _) (toy_lib, toy_fs)).
  simpl. apply map_Forall_singleton. simpl. lia.
Defined.

Example toy_history_since_clear :
  _meas_per_iter
    (run [call_add_meas_per_iter "loss" 1%float; call_clear_all_meas_per_iter;
          call_add_meas_per_iter "loss" 0.5%float; call_add_meas "loss" 2%float;
          call_add_meas_per_iter "loss" 0.25%float]
         (MLLib_ctor "/srv/model" : ToyLib, toy_fs)).1 !! "loss"
  = Some [0.5%float; 0.25%float].
Proof. reflexivity. Qed.
